(** * uv-starter: settings loader and sum endpoint

    A shallow embedding of [src/uv_starter/config.py] and
    [src/uv_starter/api/main.py].

    Both files are declarative: the fields of [Settings] and of
    [RequestPayload] get their meaning from pydantic (version 2, as the imports
    [pydantic_settings] and [field_validator] show), from pydantic-settings and
    from FastAPI.  The part of these libraries that the two files rely on is
    embedded in the modules [Py] (values), [Pydantic] (lax-mode validators)
    and in the settings sources below; the definitions named after the
    repository's own symbols ([Settings], [validate_port], [get_settings],
    [settings], [RequestPayload], [root]) follow the source line by line. *)

From Stdlib Require Import ZArith String Ascii DecimalString DecimalZ.
From Stdlib Require Import Floats.SpecFloat.
From stdpp Require Import gmap strings list fin_maps.

Set Warnings "-register-all".
Local Open Scope string_scope.
Local Open Scope list_scope.

(** ** Python values and strings *)

Module Py.

(** The Python objects that reach the two validators: what [json.loads]
    produces for a request body, what a caller passes as keyword arguments to
    [Settings(...)], and the strings of [os.environ] and of the [.env] file.
    A [dict] keeps its entries in insertion order with unique keys. *)
Inductive pyval : Type :=
| PyNone
| PyBool (b : bool)
| PyInt (z : Z)
| PyFloat (f : spec_float)
| PyStr (s : string)
| PyList (l : list pyval)
| PyDict (d : list (string * pyval)).

(** [str(z)] for an [int]: decimal digits, a minus sign for negatives. *)
Definition str_int (z : Z) : string := NilZero.string_of_int (Z.to_int z).

(** [c.lower()] on an ASCII character. *)
Definition ascii_lower (c : ascii) : ascii :=
  let n := N_of_ascii c in
  if ((65 <=? n) && (n <=? 90))%N then ascii_of_N (n + 32) else c.

(** [s.lower()]; strings are taken to be ASCII. *)
Fixpoint lower (s : string) : string :=
  match s with
  | EmptyString => EmptyString
  | String c rest => String (ascii_lower c) (lower rest)
  end.

End Py.
Import Py.

(** ** Lax-mode validators of pydantic *)

Module Pydantic.

(** Rust's [eq_ignore_ascii_case]. *)
Definition eq_ignore_ascii_case (a b : string) : bool :=
  String.eqb (lower a) (lower b).

(** pydantic-core's [str_as_bool]: the strings a [bool] field accepts. *)
Definition str_as_bool (s : string) : option bool :=
  if String.eqb s "0"
     || eq_ignore_ascii_case s "f"
     || eq_ignore_ascii_case s "n"
     || eq_ignore_ascii_case s "no"
     || eq_ignore_ascii_case s "off"
     || eq_ignore_ascii_case s "false"
  then Some false
  else if String.eqb s "1"
     || eq_ignore_ascii_case s "t"
     || eq_ignore_ascii_case s "y"
     || eq_ignore_ascii_case s "on"
     || eq_ignore_ascii_case s "yes"
     || eq_ignore_ascii_case s "true"
  then Some true
  else None.

(** pydantic-core's [int_as_bool]. *)
Definition int_as_bool (z : Z) : option bool :=
  if (z =? 0)%Z then Some false
  else if (z =? 1)%Z then Some true
  else None.

(** A [str] field: only a [str] is accepted ([bytes] do not occur here). *)
Definition validate_str (v : pyval) : option string :=
  match v with
  | PyStr s => Some s
  | _ => None
  end.

Section Lax.

(** The two numeric coercions of lax mode are parameters of the development:
    [str_as_int] is the library's parser of a string into an [int] and
    [float_as_int] its conversion of a float without fractional part. *)
Variable str_as_int : string -> option Z.
Variable float_as_int : spec_float -> option Z.

(** An [int] field in lax mode. *)
Definition validate_int (v : pyval) : option Z :=
  match v with
  | PyInt z => Some z
  | PyBool b => Some (if b then 1 else 0)%Z
  | PyFloat f => float_as_int f
  | PyStr s => str_as_int s
  | _ => None
  end.

(** A [bool] field in lax mode. *)
Definition validate_bool (v : pyval) : option bool :=
  match v with
  | PyBool b => Some b
  | PyStr s => str_as_bool s
  | PyInt z => int_as_bool z
  | PyFloat f => float_as_int f ≫= int_as_bool
  | _ => None
  end.

End Lax.

(** Validation of a model collects the locations of all failing fields. *)
Definition validated (T : Type) : Type := (list string + T)%type.

(** One field of a model: the default when the input has no entry for it
    (defaults are not validated), the validator's result otherwise. *)
Definition field {T : Type} (input : gmap string pyval) (name : string)
    (default : option T) (validate : pyval -> option T) : validated T :=
  match input !! name with
  | None =>
      match default with
      | Some x => inr x
      | None => inl [name]
      end
  | Some v =>
      match validate v with
      | Some x => inr x
      | None => inl [name]
      end
  end.

(** Fields are validated in declaration order and every error is kept. *)
Definition ap {A B : Type} (f : validated (A -> B)) (x : validated A)
    : validated B :=
  match f, x with
  | inr g, inr a => inr (g a)
  | inr _, inl e => inl e
  | inl e, inr _ => inl e
  | inl e1, inl e2 => inl (e1 ++ e2)%list
  end.

End Pydantic.
Import Pydantic.

Infix "<*>" := ap (at level 61, left associativity).

(** A [Literal[...]] field of strings: the input must be one of the listed
    strings, compared exactly. *)
Definition validate_literal (allowed : list string) (v : pyval)
    : option string :=
  match v with
  | PyStr s => if bool_decide (s ∈ allowed) then Some s else None
  | _ => None
  end.

(** ** config.py: the [Settings] class *)

(** The eight fields of [Settings], in declaration order. *)
Record Settings : Type := {
  app_name : string;
  debug : bool;
  log_level : string;
  database_url : string;
  api_host : string;
  api_port : Z;
  api_key : string;
  secret_key : string
}.

Definition field_names : list string :=
  ["app_name"; "debug"; "log_level"; "database_url";
   "api_host"; "api_port"; "api_key"; "secret_key"].

(** The hardcoded [Field(default=...)] values. *)
Definition defaults : Settings := {|
  app_name := "uv-starter";
  debug := false;
  log_level := "INFO";
  database_url := "sqlite:///./app.db";
  api_host := "localhost";
  api_port := 8000;
  api_key := "";
  secret_key := "dev-secret-key"
|}.

Definition log_levels : list string :=
  ["DEBUG"; "INFO"; "WARNING"; "ERROR"; "CRITICAL"].

(** [Settings.validate_port]: [if not 1 <= v <= 65535: raise ValueError];
    [None] stands for the raised [ValueError]. *)
Definition validate_port (v : Z) : option Z :=
  if negb ((1 <=? v)%Z && (v <=? 65535)%Z) then None else Some v.

(** ** pydantic-settings: the sources of a [BaseSettings] class

    [model_config] sets [env_file=".env"], [case_sensitive=False] and
    [extra="ignore"]; there is no prefix, no nested delimiter and no secrets
    directory. *)

(** The process environment and the bindings of the [.env] file, in iteration
    order. *)
Definition environ : Type := list (string * string).

(** [parse_env_vars] with [case_sensitive=False]:
    [{k.lower(): v for k, v in env_vars.items()}]; a later key overwrites an
    earlier one that lowers to the same name. *)
Definition parse_env_vars (vars : environ) : gmap string string :=
  foldl (fun m kv => <[lower kv.1 := kv.2]> m) ∅ vars.

(** [EnvSettingsSource.__call__]: for every field, the variable named like the
    field (lowered, as the keys are) when there is one. *)
Definition EnvSettingsSource (env_vars : gmap string string)
    : gmap string pyval :=
  foldl (fun data name =>
           match env_vars !! lower name with
           | Some v => <[name := PyStr v]> data
           | None => data
           end) ∅ field_names.

(** [DotEnvSettingsSource.__call__]: the fields as above; since [extra] is not
    ["forbid"], every other non-empty binding of the file is handed to the
    model under its own (lowered) key. *)
Definition DotEnvSettingsSource (env_file : option environ)
    : gmap string pyval :=
  let env_vars :=
    match env_file with
    | Some bindings => parse_env_vars bindings
    | None => ∅
    end in
  let data := EnvSettingsSource env_vars in
  let extras :=
    filter (fun kv => kv.2 ≠ "" ∧ kv.1 ∉ (lower <$> field_names)) env_vars in
  data ∪ (PyStr <$> extras).

(** [deep_update(source_state, state)]: the entries of [state], which come
    from the sources of higher priority, win over those of [source_state]. *)
Definition deep_update (source_state state : gmap string pyval)
    : gmap string pyval :=
  state ∪ source_state.

(** [_settings_build_values]: the sources in priority order (keyword
    arguments, environment, [.env] file), each merged under the state built
    so far. *)
Definition _settings_build_values (init_kwargs : gmap string pyval)
    (os_environ : environ) (env_file : option environ) : gmap string pyval :=
  foldl (fun state source_state => deep_update source_state state) ∅
    [init_kwargs;
     EnvSettingsSource (parse_env_vars os_environ);
     DotEnvSettingsSource env_file].

Section Program.

Variable str_as_int : string -> option Z.
Variable float_as_int : spec_float -> option Z.

(** The [api_port] field: lax [int], then the [validate_port] validator (a
    [field_validator] runs after the type's own validation). *)
Definition validate_api_port (v : pyval) : option Z :=
  validate_int str_as_int float_as_int v ≫= validate_port.

(** Validation of the model [Settings]; keys of the input that name no field
    are never looked at ([extra="ignore"]). *)
Definition Settings_validate (input : gmap string pyval)
    : validated Settings :=
  inr Build_Settings
    <*> field input "app_name" (Some (app_name defaults)) validate_str
    <*> field input "debug" (Some (debug defaults))
          (validate_bool float_as_int)
    <*> field input "log_level" (Some (log_level defaults))
          (validate_literal log_levels)
    <*> field input "database_url" (Some (database_url defaults)) validate_str
    <*> field input "api_host" (Some (api_host defaults)) validate_str
    <*> field input "api_port" (Some (api_port defaults)) validate_api_port
    <*> field input "api_key" (Some (api_key defaults)) validate_str
    <*> field input "secret_key" (Some (secret_key defaults)) validate_str.

(** [Settings()], called with keyword arguments [init_kwargs], in a process with environment [os_environ] and
    [.env] file [env_file] ([None] when the file does not exist): either the
    instance or the [ValidationError] with the failing fields. *)
Definition Settings_new (init_kwargs : gmap string pyval)
    (os_environ : environ) (env_file : option environ) : validated Settings :=
  Settings_validate (_settings_build_values init_kwargs os_environ env_file).


(** ** config.py: [get_settings] and the module-level [settings] *)

(** The state of the process as far as [config.py] is concerned: the
    environment and the [.env] file that a construction reads, the [Settings]
    objects constructed so far (an object's address is its position in
    [heap]), the entry of the [lru_cache] wrapped around [get_settings] (the
    function takes no argument, so there is one key), and the module global
    [settings]. *)
Record process : Type := {
  os_environ : environ;
  env_file : option environ;
  heap : list Settings;
  cache : option nat;
  settings : option nat
}.

Inductive outcome : Type :=
| Returned (addr : nat)
| Raised (locs : list string)
| Done.

(** [get_settings()]: a hit returns the cached object; a miss runs the body
    [return Settings()], and stores the new object unless the body raised. *)
Definition get_settings (p : process) : process * outcome :=
  match cache p with
  | Some addr => (p, Returned addr)
  | None =>
      match Settings_new ∅ (os_environ p) (env_file p) with
      | inr obj =>
          let addr := length (heap p) in
          ({| os_environ := os_environ p; env_file := env_file p;
              heap := heap p ++ [obj]; cache := Some addr;
              settings := settings p |}, Returned addr)
      | inl locs => (p, Raised locs)
      end
  end.

(** [get_settings.cache_clear()]. *)
Definition cache_clear (p : process) : process :=
  {| os_environ := os_environ p; env_file := env_file p; heap := heap p;
     cache := None; settings := settings p |}.

(** The process before [uv_starter.config] is imported. *)
Definition initial (e : environ) (f : option environ) : process :=
  {| os_environ := e; env_file := f; heap := []; cache := None;
     settings := None |}.

(** Importing the module runs its last statement,
    [settings = get_settings()]. *)
Definition import_config (p : process) : process * outcome :=
  match get_settings p with
  | (p', Returned addr) =>
      ({| os_environ := os_environ p'; env_file := env_file p';
          heap := heap p'; cache := cache p'; settings := Some addr |}, Done)
  | (p', r) => (p', r)
  end.

(** [obj.<field> = value]: [Settings] does not set [frozen] (nor
    [validate_assignment]), so pydantic stores the value in the object. *)
Inductive assignment : Type :=
| set_app_name (v : string)
| set_debug (v : bool)
| set_log_level (v : string)
| set_database_url (v : string)
| set_api_host (v : string)
| set_api_port (v : Z)
| set_api_key (v : string)
| set_secret_key (v : string).

Definition setattr (obj : Settings) (u : assignment) : Settings :=
  let '(Build_Settings n d l u' h p k s) := obj in
  match u with
  | set_app_name v => Build_Settings v d l u' h p k s
  | set_debug v => Build_Settings n v l u' h p k s
  | set_log_level v => Build_Settings n d v u' h p k s
  | set_database_url v => Build_Settings n d l v h p k s
  | set_api_host v => Build_Settings n d l u' v p k s
  | set_api_port v => Build_Settings n d l u' h v k s
  | set_api_key v => Build_Settings n d l u' h p v s
  | set_secret_key v => Build_Settings n d l u' h p k v
  end.

(** What the rest of the program can do between two calls. *)
Inductive op : Type :=
| GetSettings
| CacheClear
| SetEnviron (e : environ)
| SetEnvFile (f : option environ)
| SetAttr (addr : nat) (u : assignment).

Definition exec (p : process) (o : op) : process * outcome :=
  match o with
  | GetSettings => get_settings p
  | CacheClear => (cache_clear p, Done)
  | SetEnviron e =>
      ({| os_environ := e; env_file := env_file p; heap := heap p;
          cache := cache p; settings := settings p |}, Done)
  | SetEnvFile f =>
      ({| os_environ := os_environ p; env_file := f; heap := heap p;
          cache := cache p; settings := settings p |}, Done)
  | SetAttr addr u =>
      ({| os_environ := os_environ p; env_file := env_file p;
          heap := alter (fun obj => setattr obj u) addr (heap p);
          cache := cache p; settings := settings p |}, Done)
  end.

Definition run (p : process) (ops : list op) : process :=
  foldl (fun q o => (exec q o).1) p ops.

#[global] Instance assignment_eq_dec : EqDecision assignment.
Proof. solve_decision. Defined.

#[global] Instance op_eq_dec : EqDecision op.
Proof. solve_decision. Defined.

(** ** api/main.py *)

(** Modelled from the spec: [uv_starter.demo_module.add], which [main.py]
    imports, is not among the sources; the specification has the handler
    compute [sum = num_1 + num_2] with integer addition that cannot
    overflow. *)
Definition add (a b : Z) : Z := (a + b)%Z.

Record RequestPayload : Type := {
  num_1 : Z;
  num_2 : Z
}.

(** Validation of the model [RequestPayload]: both fields are required. *)
Definition RequestPayload_validate (input : gmap string pyval)
    : validated RequestPayload :=
  inr Build_RequestPayload
    <*> field input "num_1" None (validate_int str_as_int float_as_int)
    <*> field input "num_2" None (validate_int str_as_int float_as_int).

(** The handler [root]. *)
Definition root (request_payload : RequestPayload) : pyval :=
  let sum := add (num_1 request_payload) (num_2 request_payload) in
  PyDict [("message", PyStr ("the sum is " +:+ str_int sum))].

(** What FastAPI answers: the handler's return value with status 200, or the
    validation errors of the body with status 422. *)
Inductive response : Type :=
| JSONResponse (content : pyval)
| RequestValidationError (locs : list string).

Definition status_code (r : response) : Z :=
  match r with
  | JSONResponse _ => 200
  | RequestValidationError _ => 422
  end.

(** [POST /] with the decoded JSON body [body]: FastAPI validates the body
    against [RequestPayload] and calls [root] when it is valid. *)
Definition post_root (body : pyval) : response :=
  match body with
  | PyDict d =>
      match RequestPayload_validate (list_to_map d) with
      | inr request_payload => JSONResponse (root request_payload)
      | inl locs => RequestValidationError locs
      end
  | _ => RequestValidationError ["body"]
  end.

End Program.

(** ** Reference instances of the two coercions

    Used to evaluate the model on concrete inputs. *)

(** An optional minus sign followed by decimal digits. *)
Definition decimal_as_int (s : string) : option Z :=
  Z.of_int <$> NilZero.int_of_string s.

(** A finite float whose value is an integer. *)
Definition integral_as_int (f : spec_float) : option Z :=
  match f with
  | S754_zero _ => Some 0%Z
  | S754_finite sign m e =>
      let mag :=
        match e with
        | Z0 => Some (Z.pos m)
        | Zpos _ => Some (Z.pos m * 2 ^ e)%Z
        | Zneg k =>
            if (Z.pos m mod 2 ^ Z.pos k =? 0)%Z
            then Some (Z.pos m / 2 ^ Z.pos k)%Z else None
        end in
      (fun v => if sign then (- v)%Z else v) <$> mag
  | _ => None
  end.

(** ** The precedence rule, as the specification words it *)

(** The value of the variable of [vars] whose name matches [name] without
    regard to letter case; when several do, the one latest in [vars]. *)
Fixpoint env_value (vars : environ) (name : string) : option string :=
  match vars with
  | [] => None
  | (k, v) :: rest =>
      match env_value rest name with
      | Some v' => Some v'
      | None => if decide (lower k = lower name) then Some v else None
      end
  end.

(** Process environment first, then the file when there is one. *)
Definition precedence (e : environ) (f : option environ) (name : string)
    : option string :=
  match env_value e name with
  | Some v => Some v
  | None =>
      match f with
      | Some bindings => env_value bindings name
      | None => None
      end
  end.

(** The value a field gets from the precedence rule: the chosen raw string,
    validated as the field's type, or the default when no source has one. *)
Definition field_value {T : Type} (e : environ) (f : option environ)
    (name : string) (default : T) (validate : pyval -> option T) : option T :=
  match precedence e f name with
  | Some raw => validate (PyStr raw)
  | None => Some default
  end.

(** The lowered forms a [bool] field accepts, by truth value. *)
Definition false_forms : list string := ["0"; "f"; "n"; "no"; "off"; "false"].
Definition true_forms : list string := ["1"; "t"; "y"; "on"; "yes"; "true"].

(** The forms the specification lists ([true/True/TRUE/1/on/yes] and
    [false/False/FALSE/0/off/no], the words in any letter case), lowered. *)
Definition listed_forms : list string :=
  ["true"; "1"; "on"; "yes"; "false"; "0"; "off"; "no"].

(** The cache only ever holds the address of a constructed object. *)
Definition wf (p : process) : Prop :=
  forall addr, cache p = Some addr -> addr < length (heap p).

(** The attribute an assignment writes. *)
Definition attribute (u : assignment) : string :=
  match u with
  | set_app_name _ => "app_name"
  | set_debug _ => "debug"
  | set_log_level _ => "log_level"
  | set_database_url _ => "database_url"
  | set_api_host _ => "api_host"
  | set_api_port _ => "api_port"
  | set_api_key _ => "api_key"
  | set_secret_key _ => "secret_key"
  end.

(** How often an operation occurs in a run. *)
Definition occurrences (o : op) (ops : list op) : nat :=
  length (filter (fun o' => o' = o) ops).

Section Expected.

Variable str_as_int : string -> option Z.
Variable float_as_int : spec_float -> option Z.

(** The fields whose picked value does not validate, in declaration order;
    only the three fields that are not plain strings can be among them. *)
Definition failing_fields (e : environ) (f : option environ) : list string :=
  match field_value e f "debug" false (validate_bool float_as_int) with
  | Some _ => []
  | None => ["debug"]
  end ++
  match field_value e f "log_level" "INFO" (validate_literal log_levels) with
  | Some _ => []
  | None => ["log_level"]
  end ++
  match field_value e f "api_port" 8000%Z
          (validate_api_port str_as_int float_as_int) with
  | Some _ => []
  | None => ["api_port"]
  end.

(** A required [int] field of a request body, validated. *)
Definition body_int (d : list (string * pyval)) (name : string) : option Z :=
  (list_to_map d : gmap string pyval) !! name
    ≫= validate_int str_as_int float_as_int.

End Expected.

(** * Properties *)

(** ** Strings *)

Lemma ascii_lower_digit (c : ascii) :
  ascii_lower c = "0"%char \/ ascii_lower c = "1"%char -> ascii_lower c = c.
Proof.
  destruct c as [[] [] [] [] [] [] [] []]; vm_compute; intuition congruence.
Qed.

Lemma eqb_lower_digit (s d : string) :
  d = "0" \/ d = "1" -> String.eqb s d = String.eqb (lower s) d.
Proof.
  intros Hd. destruct (String.eqb_spec (lower s) d) as [H|H].
  - apply String.eqb_eq. destruct s as [|c [|c' s]];
      [destruct Hd; subst; discriminate| |destruct Hd; subst; discriminate].
    simpl in H. rewrite <- H. f_equal. symmetry. apply ascii_lower_digit.
    destruct Hd; subst; injection H; auto.
  - apply String.eqb_neq. intros ->. apply H. by destruct Hd; subst.
Qed.

Lemma bool_decide_elem_of_cons (x a : string) (l : list string) :
  bool_decide (x ∈ a :: l) = String.eqb x a || bool_decide (x ∈ l).
Proof.
  destruct (String.eqb_spec x a) as [->|Hne]; simpl.
  - apply bool_decide_eq_true. by left.
  - apply bool_decide_ext. rewrite elem_of_cons. tauto.
Qed.

(** [str_as_bool] accepts exactly the strings that lower to one of the
    twelve forms. *)
Lemma str_as_bool_spec (s : string) :
  str_as_bool s =
  if bool_decide (lower s ∈ false_forms) then Some false
  else if bool_decide (lower s ∈ true_forms) then Some true
  else None.
Proof.
  unfold str_as_bool, eq_ignore_ascii_case, false_forms, true_forms.
  rewrite (eqb_lower_digit s "0"), (eqb_lower_digit s "1") by auto.
  rewrite !bool_decide_elem_of_cons.
  rewrite !(bool_decide_eq_false_2 (lower s ∈ [])) by apply not_elem_of_nil.
  rewrite !orb_false_r, !orb_assoc. reflexivity.
Qed.

(** ** The settings sources *)

Lemma parse_env_vars_acc (vars : environ) (acc : gmap string string)
    (name : string) :
  foldl (fun m kv => <[lower kv.1 := kv.2]> m) acc vars !! lower name =
  match env_value vars name with
  | Some v => Some v
  | None => acc !! lower name
  end.
Proof.
  revert acc. induction vars as [|[k v] rest IH]; intros acc; [reflexivity|].
  simpl. rewrite IH. destruct (env_value rest name); [reflexivity|].
  rewrite lookup_insert. destruct (decide (lower k = lower name)); reflexivity.
Qed.

Lemma parse_env_vars_lookup (vars : environ) (name : string) :
  parse_env_vars vars !! lower name = env_value vars name.
Proof.
  unfold parse_env_vars. rewrite parse_env_vars_acc.
  destruct (env_value vars name); [reflexivity | apply lookup_empty].
Qed.

Lemma env_source_acc (env_vars : gmap string string) (names : list string)
    (acc : gmap string pyval) (name : string) :
  foldl (fun data n =>
           match env_vars !! lower n with
           | Some v => <[n := PyStr v]> data
           | None => data
           end) acc names !! name =
  match (if decide (name ∈ names) then env_vars !! lower name else None) with
  | Some v => Some (PyStr v)
  | None => acc !! name
  end.
Proof.
  revert acc. induction names as [|n names IH]; intros acc; simpl.
  - destruct (decide (name ∈ [])) as [H|_]; [inversion H | reflexivity].
  - rewrite IH. destruct (decide (name ∈ names)) as [Hin|Hnin].
    + rewrite decide_True by (by right).
      destruct (env_vars !! lower name) as [v|] eqn:Hv; [reflexivity|].
      destruct (env_vars !! lower n) as [w|] eqn:Hw; [|reflexivity].
      rewrite lookup_insert_ne; [reflexivity|]. congruence.
    + destruct (decide (name = n)) as [->|Hne].
      * rewrite decide_True by (by left).
        destruct (env_vars !! lower n); [apply lookup_insert_eq | reflexivity].
      * rewrite decide_False by (intros [->|?]%elem_of_cons; tauto).
        destruct (env_vars !! lower n); [|reflexivity].
        by rewrite lookup_insert_ne.
Qed.

Lemma EnvSettingsSource_lookup (env_vars : gmap string string)
    (name : string) :
  EnvSettingsSource env_vars !! name =
  if decide (name ∈ field_names) then PyStr <$> env_vars !! lower name
  else None.
Proof.
  unfold EnvSettingsSource. rewrite env_source_acc.
  destruct (decide (name ∈ field_names)); [|apply lookup_empty].
  destruct (env_vars !! lower name); [reflexivity | apply lookup_empty].
Qed.

Lemma DotEnvSettingsSource_lookup (f : option environ) (name : string) :
  name ∈ field_names ->
  DotEnvSettingsSource f !! name =
  PyStr <$> (match f with
             | Some bindings => env_value bindings name
             | None => None
             end).
Proof.
  intros Hin. unfold DotEnvSettingsSource.
  rewrite lookup_union, EnvSettingsSource_lookup, decide_True by done.
  rewrite lookup_fmap, map_lookup_filter.
  assert (Hx : forall m : gmap string string,
    (m !! name ≫= fun v =>
       guard ((name, v).2 ≠ "" ∧ (name, v).1 ∉ (lower <$> field_names));;
       Some v) = None).
  { intros m. destruct (m !! name) as [v|]; [|reflexivity]. simpl.
    rewrite option_guard_False; [reflexivity|].
    intros [_ Hn]. apply Hn. exact Hin. }
  rewrite Hx. destruct f as [b|].
  - rewrite parse_env_vars_lookup. by destruct (env_value b name).
  - by rewrite lookup_empty.
Qed.

Lemma build_values_lookup (kw : gmap string pyval) (e : environ)
    (f : option environ) (name : string) :
  name ∈ field_names ->
  _settings_build_values kw e f !! name =
  match kw !! name with
  | Some x => Some x
  | None => PyStr <$> precedence e f name
  end.
Proof.
  intros Hin. unfold _settings_build_values, deep_update, precedence. simpl.
  rewrite !lookup_union, lookup_empty, DotEnvSettingsSource_lookup by done.
  rewrite EnvSettingsSource_lookup, decide_True by done.
  rewrite parse_env_vars_lookup.
  destruct (kw !! name), (env_value e name), f as [b|];
    try destruct (env_value b name); reflexivity.
Qed.

(** ** Validation of a model *)

Lemma ap_inl_r {A B : Type} (f : validated (A -> B)) (e : list string) :
  exists e', f <*> (inl e) = inl e' /\ e ⊆ e'.
Proof.
  destruct f as [e0|g]; simpl; eexists; (split; [reflexivity|]); set_solver.
Qed.

Lemma ap_inl_l {A B : Type} (x : validated A) (e : list string) :
  exists e', @ap A B (inl e) x = inl e' /\ e ⊆ e'.
Proof.
  destruct x as [e0|a]; simpl; eexists; (split; [reflexivity|]); set_solver.
Qed.

Section Properties.

Variable str_as_int : string -> option Z.
Variable float_as_int : spec_float -> option Z.

Local Abbreviation validate_int' := (validate_int str_as_int float_as_int).
Local Abbreviation validate_api_port' :=
  (validate_api_port str_as_int float_as_int).
Local Abbreviation Settings_validate' :=
  (Settings_validate str_as_int float_as_int).
Local Abbreviation Settings_new' := (Settings_new str_as_int float_as_int).

(** Validation reads its input at the eight field names only. *)
Lemma Settings_validate_ext (m1 m2 : gmap string pyval) :
  (forall name, name ∈ field_names -> m1 !! name = m2 !! name) ->
  Settings_validate' m1 = Settings_validate' m2.
Proof.
  intros H. unfold Settings_validate, field.
  rewrite !H by (unfold field_names; set_solver). reflexivity.
Qed.

Lemma field_build {T : Type} (e : environ) (f : option environ)
    (name : string) (default : T) (validate : pyval -> option T) :
  name ∈ field_names ->
  field (_settings_build_values ∅ e f) name (Some default) validate =
  match field_value e f name default validate with
  | Some x => inr x
  | None => inl [name]
  end.
Proof.
  intros Hin. unfold field, field_value.
  rewrite build_values_lookup, lookup_empty by done.
  by destruct (precedence e f name).
Qed.


Lemma field_delete_ne {T : Type} (m : gmap string pyval) (k name : string)
    (default : option T) (validate : pyval -> option T) :
  k ≠ name ->
  field (delete k m) name default validate = field m name default validate.
Proof. intros H. unfold field. by rewrite lookup_delete_ne. Qed.

Lemma field_delete_eq {T : Type} (m : gmap string pyval) (k : string)
    (default : T) (validate : pyval -> option T) :
  field (delete k m) k (Some default) validate = inr default.
Proof. unfold field. by rewrite lookup_delete_eq. Qed.

Lemma env_value_None (vars : environ) (name : string) :
  (forall k v, (k, v) ∈ vars -> lower k ≠ lower name) ->
  env_value vars name = None.
Proof.
  induction vars as [|[k v] rest IH]; intros H; [reflexivity|].
  simpl. rewrite IH by (intros; eapply H; by right).
  rewrite decide_False; [reflexivity|]. eapply H. by left.
Qed.

Lemma env_value_skip (e1 e2 : environ) (k v name : string) :
  lower k ≠ lower name ->
  env_value (e1 ++ (k, v) :: e2) name = env_value (e1 ++ e2) name.
Proof.
  intros H. induction e1 as [|[k1 v1] e1 IH]; simpl.
  - by rewrite decide_False by done; destruct (env_value e2 name).
  - by rewrite IH.
Qed.

Lemma lower_field_name (name : string) :
  name ∈ field_names -> lower name = name.
Proof.
  unfold field_names. rewrite !elem_of_cons, elem_of_nil.
  intros H; repeat destruct H as [->|H]; done.
Qed.

(** An invalid [api_port] makes the whole validation fail, whatever the other
    fields are. *)
Lemma Settings_validate_port_error (input : gmap string pyval) (x : pyval) :
  input !! "api_port" = Some x ->
  validate_api_port' x = None ->
  exists locs, Settings_validate' input = inl locs /\ "api_port" ∈ locs.
Proof.
  intros Hx Hv. unfold Settings_validate.
  assert (Hf : field input "api_port" (Some (api_port defaults))
                 validate_api_port' = inl ["api_port"]).
  { unfold field. by rewrite Hx, Hv. }
  rewrite Hf.
  match goal with |- context [?f <*> inl ?e] =>
    destruct (ap_inl_r f e) as (e1 & -> & H1) end.
  match goal with |- context [inl e1 <*> ?y] =>
    destruct (ap_inl_l (B := string -> Settings) y e1) as (e2 & -> & H2) end.
  match goal with |- context [inl e2 <*> ?y] =>
    destruct (ap_inl_l (B := Settings) y e2) as (e3 & -> & H3) end.
  exists e3. split; [reflexivity|]. set_solver.
Qed.

(** A valid [api_port] added to an input that validates without it. *)
Lemma Settings_validate_port_ok (input : gmap string pyval) (x : pyval)
    (v : Z) (obj : Settings) :
  input !! "api_port" = Some x ->
  validate_api_port' x = Some v ->
  Settings_validate' (delete "api_port" input) = inr obj ->
  Settings_validate' input = inr (setattr obj (set_api_port v)).
Proof.
  intros Hx Hv. unfold Settings_validate.
  rewrite field_delete_eq, !field_delete_ne by done.
  assert (Hf : field input "api_port" (Some (api_port defaults))
                 validate_api_port' = inr v).
  { unfold field. by rewrite Hx, Hv. }
  rewrite Hf.
  destruct (field input "app_name" _ _), (field input "debug" _ _),
    (field input "log_level" _ _), (field input "database_url" _ _),
    (field input "api_host" _ _), (field input "api_key" _ _),
    (field input "secret_key" _ _); simpl; intros H; by simplify_eq.
Qed.

Lemma validate_port_spec (v : Z) :
  validate_port v = if decide (1 <= v <= 65535)%Z then Some v else None.
Proof.
  unfold validate_port.
  destruct (decide (1 <= v <= 65535)%Z) as [H|H];
    destruct (1 <=? v)%Z eqn:H1, (v <=? 65535)%Z eqn:H2; simpl; try done; lia.
Qed.

(** ** Defaults, precedence and unknown keys *)




(** ** The port *)


(** ** The debug flag *)

Lemma precedence_single (k v name : string) :
  precedence [(k, v)] None name =
  if decide (lower k = lower name) then Some v else None.
Proof. unfold precedence. simpl. by destruct (decide _). Qed.

(** C3, as the code has it. A string given for [debug] is coerced to [false]
    when, lowered, it is one of [0 f n no off false], to [true] when it is one
    of [1 t y on yes true], and fails validation otherwise; with the variable
    [DEBUG] (in any letter case) as the only setting, [Settings()] returns the
    defaults with that flag, or the validation error naming [debug]. *)
Theorem debug_coercion (k s : string) :
  lower k = "debug" ->
  validate_bool float_as_int (PyStr s) =
    (if bool_decide (lower s ∈ false_forms) then Some false
     else if bool_decide (lower s ∈ true_forms) then Some true
     else None)
  /\ Settings_new' ∅ [(k, s)] None =
     match validate_bool float_as_int (PyStr s) with
     | Some b => inr (setattr defaults (set_debug b))
     | None => inl ["debug"]
     end.
Proof.
  intros Hk. split; [apply str_as_bool_spec|].
  unfold Settings_new, Settings_validate.
  rewrite !field_build by (unfold field_names; set_solver).
  unfold field_value. rewrite !precedence_single, Hk. simpl.
  by destruct (str_as_bool s).
Qed.

(** ** The cached accessor *)

Local Abbreviation get_settings' := (get_settings str_as_int float_as_int).
Local Abbreviation exec' := (exec str_as_int float_as_int).
Local Abbreviation run' := (run str_as_int float_as_int).

Lemma run_cons (p : process) (o : op) (ops : list op) :
  run' p (o :: ops) = run' (exec' p o).1 ops.
Proof. reflexivity. Qed.

(** A call either hits, or constructs at the next free address, or raises. *)
Lemma get_settings_cases (p p1 : process) (a : nat) :
  get_settings' p = (p1, Returned a) ->
  cache p1 = Some a
  /\ ((cache p = Some a /\ p1 = p)
      \/ (cache p = None /\ a = length (heap p)
          /\ os_environ p1 = os_environ p /\ env_file p1 = env_file p
          /\ exists obj,
               Settings_new str_as_int float_as_int ∅
                 (os_environ p) (env_file p) = inr obj
               /\ heap p1 = heap p ++ [obj])).
Proof.
  unfold get_settings. destruct (cache p) as [c|] eqn:Hc.
  - intros [= <- <-]. split; [done|]. by left.
  - destruct (Settings_new _ _ _ _ _) as [locs|obj] eqn:Hn; [done|].
    intros [= <- <-]. split; [done|]. right. eauto 10.
Qed.

Lemma get_settings_not_done (p p1 : process) :
  get_settings' p ≠ (p1, Done).
Proof.
  unfold get_settings. destruct (cache p); [done|].
  by destruct (Settings_new _ _ _ _ _).
Qed.

Lemma get_settings_hit (p : process) (a : nat) :
  cache p = Some a -> get_settings' p = (p, Returned a).
Proof. intros H. unfold get_settings. by rewrite H. Qed.

Lemma exec_wf (p : process) (o : op) : wf p -> wf (exec' p o).1.
Proof.
  unfold wf. intros Hwf. destruct o; simpl; try done.
  - unfold get_settings. destruct (cache p) eqn:Hc; [simpl; by rewrite Hc|].
    destruct (Settings_new _ _ _ _ _); [simpl; by rewrite Hc|]. simpl.
    intros addr [= <-]. rewrite length_app. simpl. lia.
  - intros a Ha. rewrite length_alter. auto.
Qed.

Lemma run_wf (p : process) (ops : list op) : wf p -> wf (run' p ops).
Proof.
  revert p. induction ops as [|o ops IH]; intros p Hwf; [done|].
  rewrite run_cons. by apply IH, exec_wf.
Qed.

(** Without a reset the entry stays and nothing is constructed. *)
Lemma exec_cached (p : process) (o : op) (a : nat) :
  cache p = Some a -> o ≠ CacheClear ->
  cache (exec' p o).1 = Some a
  /\ length (heap (exec' p o).1) = length (heap p).
Proof.
  intros Hc Ho. destruct o; try done; simpl.
  - by rewrite (get_settings_hit p a).
  - by rewrite length_alter.
Qed.

Lemma run_cached (p : process) (ops : list op) (a : nat) :
  cache p = Some a -> CacheClear ∉ ops ->
  cache (run' p ops) = Some a
  /\ length (heap (run' p ops)) = length (heap p).
Proof.
  revert p. induction ops as [|o ops IH]; intros p Hc Hops; [done|].
  apply not_elem_of_cons in Hops as [Ho Hops]. rewrite run_cons.
  destruct (exec_cached p o a) as [H1 H2]; [done..|].
  destruct (IH _ H1 Hops) as [H3 H4]. split; [done|]. by rewrite H4.
Qed.

(** An object changes only by an assignment to one of its attributes. *)
Lemma run_heap_lookup (p : process) (ops : list op) (addr : nat)
    (obj : Settings) :
  heap p !! addr = Some obj ->
  (forall u, SetAttr addr u ∉ ops) ->
  heap (run' p ops) !! addr = Some obj.
Proof.
  revert p. induction ops as [|o ops IH]; intros p Hobj Hops; [done|].
  rewrite run_cons. apply IH; [|intros u Hu; apply (Hops u); by right].
  destruct o; simpl; try done.
  - unfold get_settings. destruct (cache p); [done|].
    destruct (Settings_new _ _ _ _ _); [done|]. simpl.
    by apply lookup_app_l_Some.
  - rewrite list_lookup_alter_ne; [done|].
    intros ->. apply (Hops u). by left.
Qed.

(** Before the first call nothing is constructed. *)
Lemma run_no_call (e : environ) (f : option environ) (ops : list op) :
  GetSettings ∉ ops ->
  heap (run' (initial e f) ops) = [] /\ cache (run' (initial e f) ops) = None.
Proof.
  assert (H : forall p, heap p = [] -> cache p = None -> GetSettings ∉ ops ->
                heap (run' p ops) = [] /\ cache (run' p ops) = None).
  { induction ops as [|o ops IH]; intros p Hh Hc Hops; [done|].
    apply not_elem_of_cons in Hops as [Ho Hops]. rewrite run_cons.
    destruct o; try done; apply IH; simpl; try done. by rewrite Hh. }
  by apply H.
Qed.

(** C6. After a call that returned an object, every later call returns that
    same object as long as the cache is not reset, whatever else the program
    does in between; right after a reset, a call constructs a new object from
    the current environment, at an address no existing object has, and
    returns it. *)
Theorem get_settings_cached (p p1 : process) (a : nat) (ops : list op) :
  wf p ->
  get_settings' p = (p1, Returned a) ->
  CacheClear ∉ ops ->
  get_settings' (run' p1 ops) = (run' p1 ops, Returned a)
  /\ forall obj,
       Settings_new str_as_int float_as_int ∅ (os_environ (run' p1 ops))
         (env_file (run' p1 ops)) = inr obj ->
       exists p3 a',
         get_settings' (cache_clear (run' p1 ops)) = (p3, Returned a')
         /\ a' ≠ a
         /\ heap (run' p1 ops) !! a' = None
         /\ heap p3 !! a' = Some obj
         /\ heap p3 !! a = heap (run' p1 ops) !! a.
Proof.
  intros Hwf Hget Hops.
  destruct (get_settings_cases _ _ _ Hget) as [Hc1 _].
  destruct (run_cached p1 ops a Hc1 Hops) as [Hc2 Hlen].
  split; [by apply get_settings_hit|].
  intros obj Hobj.
  assert (Hwf2 : wf (run' p1 ops)).
  { apply run_wf. replace p1 with (exec' p GetSettings).1
      by (simpl; by rewrite Hget). by apply exec_wf. }
  specialize (Hwf2 a Hc2).
  eexists _, (length (heap (run' p1 ops))).
  unfold get_settings at 1. simpl. rewrite Hobj. simpl.
  split; [reflexivity|]. split; [lia|].
  split; [by apply lookup_ge_None_2|]. simpl.
  split; [by rewrite lookup_app_r, Nat.sub_diag by lia|].
  by rewrite lookup_app_l by lia.
Qed.

(** C8, as the code has it. Nothing but an assignment to one of its own
    attributes changes a constructed object: over any run without such an
    assignment the object keeps its fields, and a call that returns the cached
    singleton reads the values it was constructed with. *)
Theorem instance_fields_stable (p p1 : process) (a : nat) (obj : Settings)
    (ops : list op) :
  get_settings' p = (p1, Returned a) ->
  heap p1 !! a = Some obj ->
  (forall u, SetAttr a u ∉ ops) ->
  heap (run' p1 ops) !! a = Some obj
  /\ (CacheClear ∉ ops ->
      get_settings' (run' p1 ops) = (run' p1 ops, Returned a)).
Proof.
  intros Hget Hobj Hops. split; [by apply run_heap_lookup|].
  intros Hclear. apply get_settings_hit.
  destruct (get_settings_cases _ _ _ Hget) as [Hc1 _].
  by apply run_cached.
Qed.


(** ** The sum endpoint *)

Local Abbreviation post_root' := (post_root str_as_int float_as_int).

(** [str_int] writes the integer in base ten: reading the digits back gives
    the integer. *)
Lemma str_int_decimal (z : Z) : decimal_as_int (str_int z) = Some z.
Proof.
  unfold decimal_as_int, str_int. rewrite NilZero.isi.
  - simpl. by rewrite DecimalZ.of_to.
  - destruct z; simpl; try discriminate.
    intros [= H]. by apply DecimalPos.Unsigned.to_uint_nonnil in H.
  - destruct z; simpl; try discriminate.
    intros [= H]. by apply DecimalPos.Unsigned.to_uint_nonnil in H.
Qed.

Lemma validate_int_rejects (v : pyval) :
  validate_int' v = None <->
  match v with
  | PyNone | PyList _ | PyDict _ => True
  | PyStr s => str_as_int s = None
  | PyFloat x => float_as_int x = None
  | PyInt _ | PyBool _ => False
  end.
Proof. destruct v; simpl; split; try done. Qed.



End Properties.

(** C3, where the claim fails: [t] is not among the listed forms, yet
    [DEBUG=t] is accepted and sets the flag. *)
Lemma debug_accepts_t :
  (lower "t" ∉ listed_forms)
  /\ Settings_new decimal_as_int integral_as_int ∅ [("DEBUG", "t")] None
     = inr (setattr defaults (set_debug true)).
Proof.
  split; [|reflexivity].
  unfold listed_forms. rewrite !elem_of_cons, elem_of_nil.
  intros H. repeat destruct H as [H|H]; discriminate || done.
Qed.


(** C8, where the claim fails: after [get_settings().debug = True] the cached
    singleton, constructed with [debug] false, reads [debug] true. *)
Lemma singleton_field_assigned :
  let p1 := run decimal_as_int integral_as_int (initial [] None)
              [GetSettings] in
  let p2 := run decimal_as_int integral_as_int p1
              [SetAttr 0 (set_debug true)] in
  get_settings decimal_as_int integral_as_int p1 = (p1, Returned 0)
  /\ get_settings decimal_as_int integral_as_int p2 = (p2, Returned 0)
  /\ debug <$> heap p1 !! 0 = Some false
  /\ debug <$> heap p2 !! 0 = Some true.
Proof. repeat split; reflexivity. Qed.

(** * The theorems at concrete inputs *)



Lemma debug_coercion_witness :
  lower "Debug" = "debug"
  /\ Settings_new decimal_as_int integral_as_int ∅ [("Debug", "YES")] None
     = inr (setattr defaults (set_debug true))
  /\ Settings_new decimal_as_int integral_as_int ∅ [("DEBUG", "maybe")] None
     = inl ["debug"].
Proof.
  split; [reflexivity|]. split.
  - exact (proj2 (debug_coercion decimal_as_int integral_as_int
                    "Debug" "YES" eq_refl)).
  - exact (proj2 (debug_coercion decimal_as_int integral_as_int
                    "DEBUG" "maybe" eq_refl)).
Defined.





Lemma wf_initial (e : environ) (f : option environ) : wf (initial e f).
Proof. intros addr H. discriminate H. Defined.

Lemma get_settings_cached_witness :
  let p1 := run decimal_as_int integral_as_int (initial [] None)
              [GetSettings] in
  let p2 := run decimal_as_int integral_as_int p1
              [SetEnviron [("DEBUG", "1")]; GetSettings] in
  get_settings decimal_as_int integral_as_int p2 = (p2, Returned 0)
  /\ exists p3 a',
       get_settings decimal_as_int integral_as_int (cache_clear p2)
         = (p3, Returned a')
       /\ a' ≠ 0
       /\ heap p2 !! a' = None
       /\ heap p3 !! a' = Some (setattr defaults (set_debug true))
       /\ heap p3 !! 0 = heap p2 !! 0.
Proof.
  assert (Hops : CacheClear ∉ [SetEnviron [("DEBUG", "1")]; GetSettings]).
  { rewrite !not_elem_of_cons. repeat split; try discriminate.
    apply not_elem_of_nil. }
  pose proof (get_settings_cached decimal_as_int integral_as_int
                (initial [] None) _ 0 _ (wf_initial [] None) eq_refl Hops)
    as [H1 H2].
  split; [exact H1|]. exact (H2 _ eq_refl).
Defined.

Lemma instance_fields_stable_witness :
  let p1 := run decimal_as_int integral_as_int (initial [] None)
              [GetSettings] in
  let ops := [SetEnviron [("DEBUG", "1")]; CacheClear; GetSettings;
              SetAttr 1 (set_api_port 0)] in
  heap (run decimal_as_int integral_as_int p1 ops) !! 0 = Some defaults.
Proof.
  refine (proj1 (instance_fields_stable decimal_as_int integral_as_int
            (initial [] None) _ 0 defaults
            [SetEnviron [("DEBUG", "1")]; CacheClear; GetSettings;
             SetAttr 1 (set_api_port 0)] eq_refl eq_refl _)).
  intros u. rewrite !not_elem_of_cons. repeat split; try discriminate.
  apply not_elem_of_nil.
Defined.


(** * Further properties of the code *)

Section Further.

Variable str_as_int : string -> option Z.
Variable float_as_int : spec_float -> option Z.

Local Abbreviation validate_int' := (validate_int str_as_int float_as_int).
Local Abbreviation validate_api_port' :=
  (validate_api_port str_as_int float_as_int).
Local Abbreviation Settings_validate' :=
  (Settings_validate str_as_int float_as_int).
Local Abbreviation Settings_new' := (Settings_new str_as_int float_as_int).
Local Abbreviation failing_fields' :=
  (failing_fields str_as_int float_as_int).

(** ** Construction from the environment and the file *)

Lemma field_value_str (e : environ) (f : option environ) (name d : string) :
  field_value e f name d validate_str = Some (default d (precedence e f name)).
Proof. unfold field_value. by destruct (precedence e f name). Qed.

(** What [Settings()] returns, in terms of the picked values. *)
Lemma Settings_new_env (e : environ) (f : option environ) :
  Settings_new' ∅ e f =
  match field_value e f "debug" false (validate_bool float_as_int),
        field_value e f "log_level" "INFO" (validate_literal log_levels),
        field_value e f "api_port" 8000%Z validate_api_port' with
  | Some d, Some l, Some p =>
      inr {| app_name := default "uv-starter" (precedence e f "app_name");
             debug := d; log_level := l;
             database_url :=
               default "sqlite:///./app.db" (precedence e f "database_url");
             api_host := default "localhost" (precedence e f "api_host");
             api_port := p;
             api_key := default "" (precedence e f "api_key");
             secret_key :=
               default "dev-secret-key" (precedence e f "secret_key") |}
  | _, _, _ => inl (failing_fields' e f)
  end.
Proof.
  unfold Settings_new, Settings_validate, failing_fields.
  rewrite !field_build by (unfold field_names; set_solver). simpl.
  rewrite !field_value_str.
  by destruct (field_value e f "debug" _ _),
    (field_value e f "log_level" _ _), (field_value e f "api_port" _ _).
Qed.


(** X2. When [Settings()] fails, the error names exactly the fields whose
    picked value does not validate, in declaration order; these can only be
    [debug], [log_level] and [api_port], and there is at least one. *)
Theorem validation_errors (e : environ) (f : option environ)
    (locs : list string) :
  Settings_new' ∅ e f = inl locs <->
  locs = failing_fields' e f /\ locs ≠ [].
Proof.
  rewrite Settings_new_env. unfold failing_fields.
  destruct (field_value e f "debug" false _),
    (field_value e f "log_level" "INFO" _),
    (field_value e f "api_port" 8000%Z _);
    simpl; split; try (intros H; by simplify_eq);
    try (by intros [-> ?]); by intros [? ?].
Qed.

(** ** Validated objects *)

Lemma Settings_validate_inr (input : gmap string pyval) (obj : Settings) :
  Settings_validate' input = inr obj ->
  field input "log_level" (Some "INFO") (validate_literal log_levels)
    = inr (log_level obj)
  /\ field input "api_port" (Some 8000%Z) validate_api_port'
     = inr (api_port obj).
Proof.
  unfold Settings_validate. simpl.
  destruct (field input "app_name" _ _), (field input "debug" _ _),
    (field input "log_level" _ _), (field input "database_url" _ _),
    (field input "api_host" _ _), (field input "api_port" _ _),
    (field input "api_key" _ _), (field input "secret_key" _ _);
    simpl; intros H; by simplify_eq.
Qed.

Lemma Settings_validate_log_level_error (input : gmap string pyval) :
  field input "log_level" (Some "INFO") (validate_literal log_levels)
    = inl ["log_level"] ->
  exists locs, Settings_validate' input = inl locs /\ "log_level" ∈ locs.
Proof.
  unfold Settings_validate. simpl. intros ->.
  destruct (field input "app_name" _ _), (field input "debug" _ _),
    (field input "database_url" _ _), (field input "api_host" _ _),
    (field input "api_port" _ _), (field input "api_key" _ _),
    (field input "secret_key" _ _);
    simpl; eexists; (split; [reflexivity|]); set_solver.
Qed.

(** X3. Every object [Settings()] returns, whatever the keyword arguments,
    the environment and the file, has a port between 1 and 65535 and one of
    the five log levels. *)
Theorem validated_settings_invariant (kw : gmap string pyval) (e : environ)
    (f : option environ) (obj : Settings) :
  Settings_new' kw e f = inr obj ->
  (1 <= api_port obj <= 65535)%Z /\ log_level obj ∈ log_levels.
Proof.
  unfold Settings_new. intros [Hl Hp]%Settings_validate_inr.
  unfold field in Hl, Hp. split.
  - destruct (_ !! "api_port") as [x|]; [|simplify_eq; lia].
    unfold validate_api_port in Hp.
    destruct (validate_int' x) as [v|]; simpl in Hp; [|done].
    rewrite validate_port_spec in Hp.
    destruct (decide (1 <= v <= 65535)%Z); by simplify_eq.
  - destruct (_ !! "log_level") as [x|];
      [|simplify_eq; unfold log_levels; set_solver].
    destruct x; simpl in Hl; try done.
    case_bool_decide; by simplify_eq.
Qed.

(** X4. A value given for [log_level] is accepted only when it is a string
    equal, letter case included, to one of the five levels, and is then
    stored as it is; any other value makes [Settings()] fail with an error
    that names [log_level]. *)
Theorem log_level_validation (kw : gmap string pyval) (e : environ)
    (f : option environ) (x : pyval) :
  _settings_build_values kw e f !! "log_level" = Some x ->
  (x ∉ PyStr <$> log_levels ->
     exists locs, Settings_new' kw e f = inl locs /\ "log_level" ∈ locs)
  /\ (forall obj, Settings_new' kw e f = inr obj ->
        x = PyStr (log_level obj)).
Proof.
  intros Hx. unfold Settings_new. split.
  - intros Hn. apply Settings_validate_log_level_error.
    unfold field. rewrite Hx.
    destruct x; simpl; try done.
    case_bool_decide as Hs; [|done].
    destruct Hn. by apply list_elem_of_fmap_2.
  - intros obj [Hl _]%Settings_validate_inr.
    unfold field in Hl. rewrite Hx in Hl.
    destruct x; simpl in Hl; try done.
    case_bool_decide; by simplify_eq.
Qed.

(** ** Keys and keyword arguments *)

Lemma env_value_rename (e1 e2 : environ) (k k' v name : string) :
  lower k = lower k' ->
  env_value (e1 ++ (k, v) :: e2) name = env_value (e1 ++ (k', v) :: e2) name.
Proof.
  intros H. induction e1 as [|[k1 v1] e1 IH]; simpl.
  - by rewrite H.
  - by rewrite IH.
Qed.

(** X5. A field passed as keyword argument takes that argument: the variable
    of the same name in the environment, and the file's, are not consulted,
    so the result is the same with and without the variable. *)
Theorem keyword_argument_wins (kw : gmap string pyval) (e1 e2 : environ)
    (f : option environ) (k v : string) (x : pyval) :
  lower k ∈ field_names ->
  kw !! lower k = Some x ->
  _settings_build_values kw (e1 ++ (k, v) :: e2) f !! lower k = Some x
  /\ Settings_new' kw (e1 ++ (k, v) :: e2) f = Settings_new' kw (e1 ++ e2) f.
Proof.
  intros Hin Hkw. split.
  - by rewrite build_values_lookup, Hkw.
  - unfold Settings_new. apply Settings_validate_ext. intros name Hname.
    rewrite !build_values_lookup by done.
    destruct (decide (name = lower k)) as [->|Hne]; [by rewrite Hkw|].
    destruct (kw !! name); [done|]. unfold precedence.
    rewrite env_value_skip; [done|].
    rewrite (lower_field_name name) by done. congruence.
Qed.

(** X6. The letter case of a key does not matter: replacing a key of the
    environment, or of the file, by one that differs only in case gives the
    same result. *)
Theorem key_case_irrelevant (kw : gmap string pyval) (e1 e2 : environ)
    (f : option environ) (b1 b2 : environ) (k k' v : string) :
  lower k = lower k' ->
  Settings_new' kw (e1 ++ (k, v) :: e2) f
    = Settings_new' kw (e1 ++ (k', v) :: e2) f
  /\ Settings_new' kw e1 (Some (b1 ++ (k, v) :: b2))
     = Settings_new' kw e1 (Some (b1 ++ (k', v) :: b2)).
Proof.
  intros Hk. split; unfold Settings_new; apply Settings_validate_ext;
    intros name Hname; rewrite !build_values_lookup by done;
    unfold precedence; by rewrite (env_value_rename _ _ k k').
Qed.

Lemma env_value_snoc_same (e : environ) (k v name : string) :
  lower k = lower name -> env_value (e ++ [(k, v)]) name = Some v.
Proof.
  intros H. induction e as [|[k1 v1] e IH]; simpl.
  - by rewrite decide_True.
  - by rewrite IH.
Qed.

Lemma precedence_snoc_other (e : environ) (f : option environ)
    (k v name : string) :
  name ∈ field_names -> name ≠ lower k ->
  precedence (e ++ [(k, v)]) f name = precedence e f name.
Proof.
  intros Hin Hne. unfold precedence.
  rewrite (env_value_skip e [] k v name), app_nil_r; [done|].
  rewrite (lower_field_name name) by done. congruence.
Qed.

Lemma field_value_snoc_other {T : Type} (e : environ) (f : option environ)
    (k v name : string) (d : T) (validate : pyval -> option T) :
  name ∈ field_names -> name ≠ lower k ->
  field_value (e ++ [(k, v)]) f name d validate
  = field_value e f name d validate.
Proof.
  intros Hin Hne. unfold field_value. by rewrite precedence_snoc_other.
Qed.

(** X7. A variable added to the environment under a field's name, in any
    letter case, is the value picked for that field, and it changes that
    field only: when [Settings()] succeeds before and after, the new object
    is the old one with that one attribute assigned. *)
Theorem one_variable_one_field (e : environ) (f : option environ)
    (k v : string) (obj obj' : Settings) :
  lower k ∈ field_names ->
  Settings_new' ∅ e f = inr obj ->
  Settings_new' ∅ (e ++ [(k, v)]) f = inr obj' ->
  precedence (e ++ [(k, v)]) f (lower k) = Some v
  /\ exists u, attribute u = lower k /\ obj' = setattr obj u.
Proof.
  intros Hin H H'. split.
  { unfold precedence. rewrite env_value_snoc_same; [done|].
    by rewrite (lower_field_name (lower k)). }
  rewrite Settings_new_env in H, H'. unfold failing_fields in *.
  destruct (field_value e f "debug" false _) as [d|] eqn:Hd0; [|done].
  destruct (field_value e f "log_level" "INFO" _) as [l|] eqn:Hl0; [|done].
  destruct (field_value e f "api_port" 8000%Z _) as [p|] eqn:Hp0; [|done].
  destruct (field_value (e ++ _) f "debug" false _) as [d'|] eqn:Hd; [|done].
  destruct (field_value (e ++ _) f "log_level" "INFO" _) as [l'|] eqn:Hl;
    [|done].
  destruct (field_value (e ++ _) f "api_port" 8000%Z _) as [p'|] eqn:Hp;
    [|done].
  simplify_eq.
  pose proof (fun m => field_value_snoc_other (T := bool) e f k v m) as Fd.
  pose proof (fun m => field_value_snoc_other (T := string) e f k v m) as Fl.
  pose proof (fun m => field_value_snoc_other (T := Z) e f k v m) as Fp.
  pose proof (precedence_snoc_other e f k v) as Fs.
  unfold field_names in Hin, Fd, Fl, Fp, Fs.
  rewrite !elem_of_cons, elem_of_nil in Hin.
  repeat destruct Hin as [Hin|Hin]; try done; rewrite Hin in *;
    try (rewrite Fd in Hd by solve [done | repeat constructor]);
    try (rewrite Fl in Hl by solve [done | repeat constructor]);
    try (rewrite Fp in Hp by solve [done | repeat constructor]);
    try (rewrite (Fs "app_name") by solve [done | repeat constructor]);
    try (rewrite (Fs "database_url") by solve [done | repeat constructor]);
    try (rewrite (Fs "api_host") by solve [done | repeat constructor]);
    try (rewrite (Fs "api_key") by solve [done | repeat constructor]);
    try (rewrite (Fs "secret_key") by solve [done | repeat constructor]);
    try (rewrite Hd0 in Hd); try (rewrite Hl0 in Hl);
    try (rewrite Hp0 in Hp); simplify_eq;
    first [ by eexists (set_app_name _) | by eexists (set_debug _)
          | by eexists (set_log_level _) | by eexists (set_database_url _)
          | by eexists (set_api_host _) | by eexists (set_api_port _)
          | by eexists (set_api_key _) | by eexists (set_secret_key _) ].
Qed.

(** ** The accessor over a whole run *)

Local Abbreviation get_settings' := (get_settings str_as_int float_as_int).
Local Abbreviation exec' := (exec str_as_int float_as_int).
Local Abbreviation run' := (run str_as_int float_as_int).
Local Abbreviation import_config' :=
  (import_config str_as_int float_as_int).

Lemma run_step (p : process) (o : op) (ops : list op) :
  run' p (o :: ops) = run' (exec' p o).1 ops.
Proof. reflexivity. Qed.


Lemma exec_settings (p : process) (o : op) :
  settings (exec' p o).1 = settings p.
Proof.
  destruct o; simpl; try done. unfold get_settings.
  destruct (cache p); [done|]. by destruct (Settings_new' _ _ _).
Qed.

Lemma exec_heap_length (p : process) (o : op) :
  length (heap p) <= length (heap (exec' p o).1).
Proof.
  destruct o; simpl; try done.
  - unfold get_settings. destruct (cache p); [done|].
    destruct (Settings_new' _ _ _); [done|]. simpl. rewrite length_app. lia.
  - by rewrite length_alter.
Qed.

Lemma run_heap_length (p : process) (ops : list op) :
  length (heap p) <= length (heap (run' p ops)).
Proof.
  revert p. induction ops as [|o ops IH]; intros p; [done|].
  rewrite run_step. etrans; [apply (exec_heap_length p o)|apply IH].
Qed.

(** A reset gives room for one more construction, nothing else does. *)
Lemma exec_budget (p : process) (o : op) :
  length (heap (exec' p o).1) + (if cache (exec' p o).1 is Some _ then 0 else 1)
  <= length (heap p) + (if cache p is Some _ then 0 else 1)
     + (if decide (o = CacheClear) then 1 else 0).
Proof.
  destruct o; simpl.
  - unfold get_settings. destruct (cache p) eqn:Hc; simpl.
    + rewrite Hc. lia.
    + destruct (Settings_new' _ _ _); simpl; [rewrite Hc; lia|].
      rewrite length_app. simpl. lia.
  - destruct (cache p); lia.
  - lia.
  - lia.
  - rewrite length_alter. lia.
Qed.

Lemma run_budget (p : process) (ops : list op) :
  length (heap (run' p ops)) + (if cache (run' p ops) is Some _ then 0 else 1)
  <= length (heap p) + (if cache p is Some _ then 0 else 1)
     + occurrences CacheClear ops.
Proof.
  revert p. induction ops as [|o ops IH]; intros p; [simpl; lia|].
  rewrite run_step. specialize (IH (exec' p o).1).
  pose proof (exec_budget p o) as Hb. unfold occurrences in *.
  rewrite filter_cons. destruct (decide (o = CacheClear)); simpl in *; lia.
Qed.

Lemma run_calls (p : process) (ops : list op) :
  length (heap (run' p ops))
  <= length (heap p) + occurrences GetSettings ops.
Proof.
  revert p. induction ops as [|o ops IH]; intros p; [simpl; lia|].
  rewrite run_step. specialize (IH (exec' p o).1).
  unfold occurrences in *. rewrite filter_cons.
  assert (Hs : length (heap (exec' p o).1)
               <= length (heap p) + (if decide (o = GetSettings) then 1 else 0)).
  { destruct o; simpl; try lia.
    - unfold get_settings. destruct (cache p); [simpl; lia|].
      destruct (Settings_new' _ _ _); simpl; [lia|].
      rewrite length_app. simpl. lia.
    - rewrite length_alter. lia. }
  destruct (decide (o = GetSettings)); simpl in *; lia.
Qed.

(** X9. Over any run from the state before import, the number of [Settings]
    objects constructed through the accessor is at most one more than the
    number of cache resets, and at most the number of calls. *)
Theorem instances_bounded (e : environ) (f : option environ)
    (ops : list op) :
  length (heap (run' (initial e f) ops)) <= 1 + occurrences CacheClear ops
  /\ length (heap (run' (initial e f) ops)) <= occurrences GetSettings ops.
Proof.
  split.
  - pose proof (run_budget (initial e f) ops) as H. simpl in H. lia.
  - pose proof (run_calls (initial e f) ops) as H. simpl in H. lia.
Qed.

Lemma run_settings (p : process) (ops : list op) :
  settings (run' p ops) = settings p.
Proof.
  revert p. induction ops as [|o ops IH]; intros p; [done|].
  by rewrite run_step, IH, exec_settings.
Qed.

(** X10. The module-level [settings] is bound once, at import, and nothing
    later rebinds it: over any run it stays the object of the first call,
    which still exists, while a call made after a cache reset returns a
    different object. *)
Theorem module_settings_binding (e : environ) (f : option environ)
    (p1 : process) (ops : list op) :
  import_config' (initial e f) = (p1, Done) ->
  settings (run' p1 ops) = Some 0
  /\ is_Some (heap (run' p1 ops) !! 0)
  /\ forall p2 a,
       get_settings' (cache_clear (run' p1 ops)) = (p2, Returned a) ->
       a ≠ 0 /\ settings p2 = Some 0.
Proof.
  unfold import_config.
  destruct (get_settings' (initial e f)) as [p' [a|locs|]] eqn:Hget;
    [|done|by apply get_settings_not_done in Hget].
  intros [= <-].
  destruct (get_settings_cases _ _ _ _ _ Hget)
    as [Hc1 [[Hhit _]|(_ & -> & _ & _ & obj & Hobj & Hheap)]]; [done|].
  simpl in *.
  assert (Hlen : 1 <= length (heap (run' {| os_environ := os_environ p';
            env_file := env_file p'; heap := heap p'; cache := cache p';
            settings := Some 0 |} ops))).
  { etrans; [|apply run_heap_length]. simpl. by rewrite Hheap. }
  split; [by rewrite run_settings|].
  split; [apply lookup_lt_is_Some_2; lia|].
  clear Hobj. intros p2 a. unfold get_settings. simpl.
  destruct (Settings_new' _ _ _); [done|].
  intros [= <- <-]. simpl. split; [lia|]. by rewrite run_settings.
Qed.

(** X11. Importing the module succeeds exactly when every picked value
    validates; otherwise the import raises the validation error that names
    the failing fields, and leaves nothing constructed or cached. *)
Theorem import_outcome (e : environ) (f : option environ) :
  ((exists p1, import_config' (initial e f) = (p1, Done)) <->
   failing_fields' e f = [])
  /\ (failing_fields' e f ≠ [] ->
      import_config' (initial e f)
      = (initial e f, Raised (failing_fields' e f))).
Proof.
  unfold import_config, get_settings. simpl.
  rewrite Settings_new_env. unfold failing_fields.
  destruct (field_value e f "debug" false _),
    (field_value e f "log_level" "INFO" _),
    (field_value e f "api_port" 8000%Z _); simpl;
    (split; [split; [intros [p1 H]; by simplify_eq
                    |intros H; first [done | by eexists]]
           |intros H; done]).
Qed.

(** X12. In any run from the state before import, an address the accessor
    returns is the address of a constructed object. *)
Theorem accessor_returns_object (e : environ) (f : option environ)
    (ops : list op) (p1 : process) (a : nat) :
  get_settings' (run' (initial e f) ops) = (p1, Returned a) ->
  is_Some (heap p1 !! a).
Proof.
  intros Hget. apply lookup_lt_is_Some_2.
  assert (Hwf : wf p1).
  { replace p1 with (exec' (run' (initial e f) ops) GetSettings).1
      by (simpl; by rewrite Hget).
    apply exec_wf, run_wf. intros addr H. discriminate H. }
  apply Hwf. by destruct (get_settings_cases _ _ _ _ _ Hget) as [Hc _].
Qed.

(** ** The endpoint on every body *)

Local Abbreviation post_root' := (post_root str_as_int float_as_int).
Local Abbreviation body_int' := (body_int str_as_int float_as_int).

Lemma post_root_dict (d : list (string * pyval)) :
  post_root' (PyDict d) =
  match body_int' d "num_1", body_int' d "num_2" with
  | Some a, Some b => JSONResponse (root {| num_1 := a; num_2 := b |})
  | o1, o2 =>
      RequestValidationError
        ((if o1 is Some _ then [] else ["num_1"])
         ++ (if o2 is Some _ then [] else ["num_2"]))
  end.
Proof.
  unfold post_root, RequestPayload_validate, field, body_int.
  destruct (_ !! "num_1") as [v1|]; simpl;
    [destruct (validate_int' v1); simpl|];
    (destruct (_ !! "num_2") as [v2|]; simpl;
       [by destruct (validate_int' v2)|done]).
Qed.



End Further.

(** * The further properties at concrete inputs *)


Lemma validation_errors_witness :
  Settings_new decimal_as_int integral_as_int ∅
    [("API_PORT", "0"); ("LOG_LEVEL", "info"); ("APP_NAME", "")] None
  = inl ["log_level"; "api_port"].
Proof.
  apply (validation_errors decimal_as_int integral_as_int). by split.
Defined.

Lemma validated_settings_invariant_witness :
  let obj := setattr (setattr defaults (set_api_port 443))
               (set_log_level "ERROR") in
  Settings_new decimal_as_int integral_as_int {["api_port" := PyInt 443]}
    [("LOG_LEVEL", "ERROR")] None = inr obj
  /\ (1 <= api_port obj <= 65535)%Z /\ log_level obj ∈ log_levels.
Proof.
  split; [reflexivity|].
  exact (validated_settings_invariant decimal_as_int integral_as_int
           {["api_port" := PyInt 443]} [("LOG_LEVEL", "ERROR")] None
           _ eq_refl).
Defined.

Lemma log_level_validation_witness :
  exists locs,
    Settings_new decimal_as_int integral_as_int ∅
      [("LOG_LEVEL", "debug")] None = inl locs
    /\ "log_level" ∈ locs.
Proof.
  refine (proj1 (log_level_validation decimal_as_int integral_as_int ∅
            [("LOG_LEVEL", "debug")] None (PyStr "debug") eq_refl) _).
  unfold log_levels. rewrite !fmap_cons, fmap_nil, !elem_of_cons, elem_of_nil.
  intros H. repeat destruct H as [H|H]; discriminate || done.
Defined.

Lemma membership_api_port : lower "API_PORT" ∈ field_names.
Proof. unfold field_names. simpl. rewrite !elem_of_cons. auto 10. Defined.

Lemma keyword_argument_wins_witness :
  Settings_new decimal_as_int integral_as_int {["api_port" := PyInt 8080]}
    [("API_PORT", "not-a-number")] None
  = Settings_new decimal_as_int integral_as_int {["api_port" := PyInt 8080]}
      [] None.
Proof.
  exact (proj2 (keyword_argument_wins decimal_as_int integral_as_int
                  {["api_port" := PyInt 8080]} [] [] None
                  "API_PORT" "not-a-number" (PyInt 8080)
                  membership_api_port eq_refl)).
Defined.

Lemma key_case_irrelevant_witness :
  Settings_new decimal_as_int integral_as_int ∅ [("Api_Port", "9000")] None
  = Settings_new decimal_as_int integral_as_int ∅ [("API_PORT", "9000")] None.
Proof.
  exact (proj1 (key_case_irrelevant decimal_as_int integral_as_int ∅
                  [] [] None [] [] "Api_Port" "API_PORT" "9000" eq_refl)).
Defined.

Lemma one_variable_one_field_witness :
  precedence ([("api_port", "3000")] ++ [("API_PORT", "9999")]) None
    (lower "API_PORT") = Some "9999"
  /\ exists u,
       attribute u = lower "API_PORT"
       /\ setattr defaults (set_api_port 9999)
          = setattr (setattr defaults (set_api_port 3000)) u.
Proof.
  exact (one_variable_one_field decimal_as_int integral_as_int
           [("api_port", "3000")] None "API_PORT" "9999" _ _
           membership_api_port eq_refl eq_refl).
Defined.


Lemma module_settings_binding_witness :
  let p1 := run decimal_as_int integral_as_int (initial [] None)
              [GetSettings] in
  let p1' := {| os_environ := os_environ p1; env_file := env_file p1;
                heap := heap p1; cache := cache p1; settings := Some 0 |} in
  settings (run decimal_as_int integral_as_int p1'
              [CacheClear; GetSettings]) = Some 0
  /\ cache (run decimal_as_int integral_as_int p1'
              [CacheClear; GetSettings]) = Some 1.
Proof.
  split; [|reflexivity].
  exact (proj1 (module_settings_binding decimal_as_int integral_as_int
                  [] None _ [CacheClear; GetSettings] eq_refl)).
Defined.

Lemma import_outcome_witness :
  import_config decimal_as_int integral_as_int
    (initial [("DEBUG", "maybe")] None)
  = (initial [("DEBUG", "maybe")] None, Raised ["debug"]).
Proof.
  refine (proj2 (import_outcome decimal_as_int integral_as_int
                   [("DEBUG", "maybe")] None) _).
  discriminate.
Defined.

Lemma accessor_returns_object_witness :
  is_Some (heap (run decimal_as_int integral_as_int (initial [] None)
                   [GetSettings; CacheClear; GetSettings]) !! 1).
Proof.
  exact (accessor_returns_object decimal_as_int integral_as_int [] None
           [GetSettings; CacheClear] _ 1 eq_refl).
Defined.


